(** * rpe-app: the Engine viewer (Engine.js)

    A shallow embedding of the React component [Engine] of Engine.js:
    the Leva control panel values ([config], [set]), the string-keyed
    dispatch [pton], the two pointer handlers of the root group, the
    rendered element tree with its nested [Select] groups, and the
    one-shot pivot [reset] button. *)

From Stdlib Require Import List String Bool Arith Lia ZArith.
From Stdlib Require Import DecimalString DecimalNat Permutation.
Import ListNotations.
Open Scope string_scope.

Set Warnings "-register-all".

(** ** The Leva panel *)

Module Leva.

(** The values returned by [useControls]: the six check boxes of the
    folder [parts] (folders are flattened), [all] and [autoRotate].
    The button [reset] carries no value. *)
Record Config := mkConfig {
  gear : bool;
  shaft : bool;
  cylinder : bool;
  piston1 : bool;
  piston2 : bool;
  piston3 : bool;
  all : bool;
  autoRotate : bool
}.

(** The initial values given to [useControls]. *)
Definition initial : Config :=
  mkConfig false false false false false false false false.

(** Property keys of the panel. The setter of Leva takes an object
    whose keys are property keys, not strings: this is why Engine.js
    needs [pton]. *)
Inductive Key :=
| k_gear | k_shaft | k_cylinder
| k_piston1 | k_piston2 | k_piston3
| k_all | k_autoRotate.

Definition put (k : Key) (v : bool) (c : Config) : Config :=
  match k with
  | k_gear => mkConfig v (shaft c) (cylinder c) (piston1 c) (piston2 c) (piston3 c) (all c) (autoRotate c)
  | k_shaft => mkConfig (gear c) v (cylinder c) (piston1 c) (piston2 c) (piston3 c) (all c) (autoRotate c)
  | k_cylinder => mkConfig (gear c) (shaft c) v (piston1 c) (piston2 c) (piston3 c) (all c) (autoRotate c)
  | k_piston1 => mkConfig (gear c) (shaft c) (cylinder c) v (piston2 c) (piston3 c) (all c) (autoRotate c)
  | k_piston2 => mkConfig (gear c) (shaft c) (cylinder c) (piston1 c) v (piston3 c) (all c) (autoRotate c)
  | k_piston3 => mkConfig (gear c) (shaft c) (cylinder c) (piston1 c) (piston2 c) v (all c) (autoRotate c)
  | k_all => mkConfig (gear c) (shaft c) (cylinder c) (piston1 c) (piston2 c) (piston3 c) v (autoRotate c)
  | k_autoRotate => mkConfig (gear c) (shaft c) (cylinder c) (piston1 c) (piston2 c) (piston3 c) (all c) v
  end.

(** [set({ k1: v1, ... })]: the entries of the object literal are
    written to the panel, the other values are kept. *)
Definition set (obj : list (Key * bool)) (c : Config) : Config :=
  fold_left (fun acc kv => put (fst kv) (snd kv) acc) obj c.

End Leva.

Import Leva.

(** ** Part names and the dispatch [pton] *)

(** The six names given to [Parts] in the JSX of [Engine], in order. *)
Definition part_names : list string :=
  ["gear"; "shaft"; "cylinder"; "piston1"; "piston2"; "piston3"].

(** [pton(part, stat = true)]: [part] is whatever the caller passes,
    [null] ([None]) or a string. The [switch] compares with [===]. *)
Definition pton (part : option string) (stat : bool) (c : Config) : Config :=
  let default :=
    set [(k_piston3, stat)]
      (set [(k_piston2, stat)]
        (set [(k_piston1, stat)]
          (set [(k_cylinder, stat)]
            (set [(k_shaft, stat)]
              (set [(k_gear, stat)] c))))) in
  match part with
  | Some p =>
      if p =? "gear" then set [(k_gear, stat)] c
      else if p =? "shaft" then set [(k_shaft, stat)] c
      else if p =? "cylinder" then set [(k_cylinder, stat)] c
      else if p =? "piston1" then set [(k_piston1, stat)] c
      else if p =? "piston2" then set [(k_piston2, stat)] c
      else if p =? "piston3" then set [(k_piston3, stat)] c
      else default
  | None => default
  end.

(** The check box of a part, by name: the field of [config] that the
    JSX passes to the [Parts] of that name. *)
Definition checked (c : Config) (name : string) : bool :=
  if name =? "gear" then gear c
  else if name =? "shaft" then shaft c
  else if name =? "cylinder" then cylinder c
  else if name =? "piston1" then piston1 c
  else if name =? "piston2" then piston2 c
  else if name =? "piston3" then piston3 c
  else false.

(** ** The rendered tree *)

(** What [Engine] returns, once the components [Parts] and [Mesh] are
    expanded: three.js groups, [Select] groups (a group with a name and
    an [enabled] flag), meshes numbered as in the glTF file
    ([mesh_<num>]) and JSX text. A [Select] without a [name] prop keeps
    the empty name of a three.js object. *)
Inductive Element :=
| group (children : list Element)
| Select (name : string) (enabled : bool) (children : list Element)
| mesh (num : nat)
| text (s : string).

(** [hovered === name]: [hovered] is [null] or a string. *)
Definition hovered_is (hovered : option string) (name : string) : bool :=
  match hovered with
  | Some h => h =? name
  | None => false
  end.

Definition Mesh (num : nat) : Element := mesh num.

(** [Parts({ name, config, arr })]. *)
Definition Parts (hovered : option string)
    (name : string) (config : bool) (arr : list nat) : Element :=
  Select name (hovered_is hovered name || config)
    (map (fun item => Mesh item) arr).

(** The JSX returned by [Engine]; the stray word before each [Parts]
    is JSX text. *)
Definition Engine (hovered : option string) (config : Config) : Element :=
  group
    [Select "" (all config)
       [text "return ";
        Parts hovered "gear" (gear config) [0; 1; 2; 3; 4; 5; 6; 7; 8; 9; 10; 13];
        text "return ";
        Parts hovered "shaft" (shaft config) [29; 30; 31; 32; 33];
        text "return ";
        Parts hovered "cylinder" (cylinder config) [11; 12; 14; 19; 34; 39; 47; 52];
        text "return ";
        Parts hovered "piston1" (piston1 config)
          [15; 16; 17; 18; 20; 21; 22; 23; 24; 25; 26; 27; 28];
        text "return ";
        Parts hovered "piston2" (piston2 config)
          [35; 36; 37; 38; 40; 41; 42; 43; 44; 45; 46];
        text "return ";
        Parts hovered "piston3" (piston3 config)
          [48; 49; 50; 51; 53; 54; 55; 56; 57; 58; 59]]].

(** The meshes below an element, in traversal order. *)
Fixpoint meshes (e : Element) : list nat :=
  match e with
  | group cs => flat_map meshes cs
  | Select _ _ cs => flat_map meshes cs
  | mesh num => [num]
  | text _ => []
  end.

(** The part table as the tree has it: every named [Select] with the
    meshes below it, in order. *)
Fixpoint part_table (e : Element) : list (string * list nat) :=
  match e with
  | group cs => flat_map part_table cs
  | Select name _ cs =>
      (if name =? "" then [] else [(name, flat_map meshes cs)])
        ++ flat_map part_table cs
  | mesh _ => []
  | text _ => []
  end.

Fixpoint lookup (name : string) (t : list (string * list nat))
    : option (list nat) :=
  match t with
  | [] => None
  | (n, arr) :: t' => if n =? name then Some arr else lookup name t'
  end.

(** The [enabled] flag of the [Select] called [name], if the tree has
    one. *)
Fixpoint enabled_of (name : string) (e : Element) : option bool :=
  let fix first (cs : list Element) : option bool :=
    match cs with
    | [] => None
    | c :: cs' =>
        match enabled_of name c with
        | Some b => Some b
        | None => first cs'
        end
    end in
  match e with
  | group cs => first cs
  | Select n en cs => if n =? name then Some en else first cs
  | mesh _ => None
  | text _ => None
  end.

(** [object.parent.name] for the mesh [num] of the tree: the name of
    the group or [Select] that has the mesh as a child. The root group
    gets no name from [Engine]. *)
Fixpoint parent_name (num : nat) (self : string) (e : Element)
    : option string :=
  let fix first (self' : string) (cs : list Element) : option string :=
    match cs with
    | [] => None
    | c :: cs' =>
        match parent_name num self' c with
        | Some p => Some p
        | None => first self' cs'
        end
    end in
  match e with
  | group cs => first "" cs
  | Select n _ cs => first n cs
  | mesh k => if k =? num then Some self else None
  | text _ => None
  end%nat.

(** Modelled from the spec: the [Select] component and the selection
    context of @react-three/postprocessing are not part of this
    repository. An enabled [Select] adds every mesh below it to the
    selection that the outline effect highlights; children run their
    effects before their parents. *)
Fixpoint selected (e : Element) : list nat :=
  match e with
  | group cs => flat_map selected cs
  | Select _ en cs =>
      flat_map selected cs ++ (if en then flat_map meshes cs else [])
  | mesh _ => []
  | text _ => []
  end.

(** The outline highlight of mesh [num]. *)
Definition highlight (e : Element) (num : nat) : bool :=
  existsb (Nat.eqb num) (selected e).

(** ** State and pointer handlers *)

(** The state of the component that the handlers write: [hovered]
    ([useState(null)]) and the panel values. *)
Record State := mkState {
  hovered : option string;
  config : Config
}.

Definition initial_state : State := mkState None initial.

Definition render (s : State) : Element := Engine (hovered s) (config s).

(** [onDoubleClick], fired on the mesh [num] of the rendered tree
    ([e.object]): [part = e.object.parent.name], [setHover(part)],
    [pton(part)] with the default [stat = true]. The ray caster only
    reports objects of the tree; for any other number nothing fires. *)
Definition onDoubleClick (num : nat) (s : State) : State :=
  match parent_name num "" (render s) with
  | Some part => mkState (Some part) (pton (Some part) true (config s))
  | None => s
  end.

(** [onPointerOut]: [setHover(null)], [pton(null, false)]. *)
Definition onPointerOut (s : State) : State :=
  mkState None (pton None false (config s)).

(** ** The pivot reset button *)

Module Pivot.

(** [THREE.Vector3] over the numbers of the host. *)
Record Vector3 (num : Type) := mkVector3 { x : num; y : num; z : num }.
Arguments mkVector3 {num}.
Arguments x {num}.
Arguments y {num}.
Arguments z {num}.

(** A three.js object: its [position] and everything else (children,
    geometry, rotation), which the button does not write. *)
Record Object3D (num Body : Type) :=
  mkObject3D { position : Vector3 num; body : Body }.
Arguments mkObject3D {num Body}.
Arguments position {num Body}.
Arguments body {num Body}.

(** The camera: its [up] vector and the rest. *)
Record Camera (num Optics : Type) :=
  mkCamera { up : Vector3 num; optics : Optics }.
Arguments mkCamera {num Optics}.
Arguments up {num Optics}.
Arguments optics {num Optics}.

(** What the button takes from three.js and the controls of the
    canvas, kept abstract: JavaScript numbers with negation and the
    literals 0 and 1, [Box3.setFromObject], [Box3.getCenter], and
    the [reset] of the controls, which writes the controls and their
    camera. *)
Class Three := {
  num : Type;
  zero : num;
  one : num;
  neg : num -> num;
  Body : Type;
  Box3 : Type;
  setFromObject : Object3D num Body -> Box3;
  getCenter : Box3 -> Vector3 num;
  Optics : Type;
  Controls : Type;
  controls_reset :
    Controls -> Camera num Optics -> Controls * Camera num Optics
}.

Section Button.
Context `{Three}.

(** [Vector3.negate]. *)
Definition negate (v : Vector3 num) : Vector3 num :=
  mkVector3 (neg (x v)) (neg (y v)) (neg (z v)).

(** [Vector3.toArray], and [Vector3.set] applied to the spread
    array. *)
Definition toArray (v : Vector3 num) : num * num * num :=
  (x v, y v, z v).

Definition set_spread (a : num * num * num) : Vector3 num :=
  let '(a0, a1, a2) := a in mkVector3 a0 a1 a2.

(** What the button reads and writes: the refs [reset] and [group]
    of the component and [state.controls], [state.camera]. *)
Record Viewer := mkViewer {
  reset_current : bool;
  group_current : Object3D num Body;
  controls : Controls;
  camera : Camera num Optics
}.

(** The guarded block of the button: set the pivot point to the
    center of the bounding box, once. *)
Definition recenter (v : Viewer) : Viewer :=
  if negb (reset_current v) then
    let bb := setFromObject (group_current v) in
    let center := getCenter bb in
    mkViewer true
      (mkObject3D (set_spread (toArray (negate center)))
                  (body (group_current v)))
      (controls v) (camera v)
  else v.

(** The callback of [button] under the key [reset]. *)
Definition reset (v : Viewer) : Viewer :=
  let v1 := recenter v in
  let '(ctl, cam) := controls_reset (controls v1) (camera v1) in
  mkViewer (reset_current v1) (group_current v1) ctl
    (mkCamera (mkVector3 zero one zero) (optics cam)).

End Button.

(** An instance to run the button on: integer coordinates, a box
    given by two corners around the position of the object, controls
    that remember the camera they started with. *)
Definition box_around (o : Object3D Z unit) : Vector3 Z * Vector3 Z :=
  let p := position o in
  (mkVector3 (x p - 1) (y p - 2) (z p - 3),
   mkVector3 (x p + 5) (y p + 4) (z p + 3))%Z.

Definition box_center (b : Vector3 Z * Vector3 Z) : Vector3 Z :=
  let '(lo, hi) := b in
  (mkVector3 ((x lo + x hi) / 2) ((y lo + y hi) / 2) ((z lo + z hi) / 2))%Z.

#[local] Instance ThreeZ : Three := {|
  num := Z;
  zero := 0%Z;
  one := 1%Z;
  neg := Z.opp;
  Body := unit;
  Box3 := Vector3 Z * Vector3 Z;
  setFromObject := box_around;
  getCenter := box_center;
  Optics := nat;
  Controls := Camera Z nat;
  controls_reset := fun ctl _ => (ctl, ctl)
|}.

Definition viewerZ : Viewer :=
  mkViewer false
    (mkObject3D (mkVector3 10 20 30)%Z tt)
    (mkCamera (mkVector3 0 1 0)%Z 35)
    (mkCamera (mkVector3 1 0 0)%Z 50).

End Pivot.

(** ** Events of the viewer *)

(** What changes the state of the component: the two pointer handlers
    of the root group, and the user editing a value of the panel. *)
Inductive Event :=
| DoubleClick (num : nat)
| PointerOut
| Panel (k : Key) (v : bool).

Definition handle (ev : Event) (s : State) : State :=
  match ev with
  | DoubleClick num => onDoubleClick num s
  | PointerOut => onPointerOut s
  | Panel k v => mkState (hovered s) (set [(k, v)] (config s))
  end.

Definition run (evs : list Event) (s : State) : State :=
  fold_left (fun acc ev => handle ev acc) evs s.

Definition is_pointer (ev : Event) : bool :=
  match ev with
  | Panel _ _ => false
  | _ => true
  end.

(** A state in which the hovered part, if any, is one of the six and
    has its box checked. *)
Definition hover_is_checked (s : State) : Prop :=
  forall name,
    hovered s = Some name ->
    In name part_names /\ checked (config s) name = true.

(** ** The glTF nodes read by [Mesh] *)

(** The template literal [`mesh_${num}`], for the non-negative integers
    the arrays hold: the decimal digits of [num] after the prefix. *)
Definition mesh_key (num : nat) : string :=
  "mesh_" ++ NilEmpty.string_of_uint (Nat.to_uint num).

(** [nodes[key]] for the key of [num]: [nodes] is the object returned
    by [useGLTF], a missing key gives [undefined] ([None]), and reading
    [.geometry] of it throws. *)
Definition Mesh_node {A : Type} (nodes : string -> option A) (num : nat)
    : option A :=
  nodes (mesh_key num).

(** Rendering the tree with [nodes]: the nodes the meshes read, in
    order, or [None] when some [Mesh] throws. *)
Fixpoint mount {A : Type} (nodes : string -> option A) (e : Element)
    : option (list A) :=
  let fix each (cs : list Element) : option (list A) :=
    match cs with
    | [] => Some []
    | c :: cs' =>
        match mount nodes c with
        | Some a =>
            match each cs' with
            | Some b => Some (a ++ b)%list
            | None => None
            end
        | None => None
        end
    end in
  match e with
  | group cs => each cs
  | Select _ _ cs => each cs
  | mesh num =>
      match Mesh_node nodes num with
      | Some a => Some [a]
      | None => None
      end
  | text _ => Some []
  end.

(** The nodes read for a list of mesh numbers, in order; [None] as soon
    as one is missing. *)
Fixpoint read_nodes {A : Type} (nodes : string -> option A)
    (nums : list nat) : option (list A) :=
  match nums with
  | [] => Some []
  | num :: nums' =>
      match Mesh_node nodes num with
      | Some a =>
          match read_nodes nodes nums' with
          | Some b => Some (a :: b)
          | None => None
          end
      | None => None
      end
  end.

(** ** What the body of [Engine] writes on each render *)

Module Body.

(** A [THREE.BoxHelper]: its color and its [visible] flag; the object
    it frames plays no role here. *)
Record BoxHelper := mkBoxHelper { color : string; visible : bool }.

(** The objects the body writes. The helper is one object reachable
    from the ref [boxH] and from the children of [state.scene]: both
    hold its address in [heap]. [controls_autoRotate] is
    [state.controls.autoRotate]: [None] without controls, [Some None]
    when the controls have no such property. *)
Record Refs := mkRefs {
  heap : list BoxHelper;
  boxH_current : option nat;
  scene : list nat;
  controls_autoRotate : option (option bool)
}.

(** Before the first render: [useRef()] and an untouched scene. *)
Definition initial_refs (ctl : option (option bool)) : Refs :=
  mkRefs [] None [] ctl.

Fixpoint set_visible (ref : nat) (v : bool) (h : list BoxHelper)
    : list BoxHelper :=
  match h, ref with
  | [], _ => []
  | b :: h', 0 => mkBoxHelper (color b) v :: h'
  | b :: h', S ref' => b :: set_visible ref' v h'
  end.

(** [if (state?.controls?.autoRotate !== undefined)
     state.controls.autoRotate = config.autoRotate]. *)
Definition sync_autoRotate (auto : bool) (r : Refs) : Refs :=
  match controls_autoRotate r with
  | Some (Some _) =>
      mkRefs (heap r) (boxH_current r) (scene r) (Some (Some auto))
  | _ => r
  end.

(** The [if (config.autoRotate) ... else ...] on the box helper; a new
    three.js object is visible. *)
Definition box_effect (auto : bool) (r : Refs) : Refs :=
  if auto then
    let r1 :=
      match boxH_current r with
      | None =>
          let ref := List.length (heap r) in
          mkRefs (heap r ++ [mkBoxHelper "white" true])%list (Some ref)
            (scene r ++ [ref])%list (controls_autoRotate r)
      | Some _ => r
      end in
    match boxH_current r1 with
    | Some ref =>
        mkRefs (set_visible ref true (heap r1)) (boxH_current r1)
          (scene r1) (controls_autoRotate r1)
    | None => r1
    end
  else
    match boxH_current r with
    | Some ref =>
        mkRefs (set_visible ref false (heap r)) (boxH_current r)
          (scene r) (controls_autoRotate r)
    | None => r
    end.

(** One execution of the body with the panel values [c]. *)
Definition body (c : Config) (r : Refs) : Refs :=
  box_effect (autoRotate c) (sync_autoRotate (autoRotate c) r).

(** Successive renders, one per panel state. *)
Definition renders (cs : list Config) (r : Refs) : Refs :=
  fold_left (fun acc c => body c acc) cs r.

(** The helpers that are children of the scene. *)
Definition scene_helpers (r : Refs) : list (option BoxHelper) :=
  map (fun ref => nth_error (heap r) ref) (scene r).

End Body.

(** * Properties *)

(** ** The part table *)

Section PartTable.

(** The table does not depend on the state: the names and the arrays
    are literals of the JSX. *)
Lemma part_table_Engine (h : option string) (c : Config) :
  part_table (Engine h c) =
    [("gear", [0; 1; 2; 3; 4; 5; 6; 7; 8; 9; 10; 13]);
     ("shaft", [29; 30; 31; 32; 33]);
     ("cylinder", [11; 12; 14; 19; 34; 39; 47; 52]);
     ("piston1", [15; 16; 17; 18; 20; 21; 22; 23; 24; 25; 26; 27; 28]);
     ("piston2", [35; 36; 37; 38; 40; 41; 42; 43; 44; 45; 46]);
     ("piston3", [48; 49; 50; 51; 53; 54; 55; 56; 57; 58; 59])].
Proof. reflexivity. Qed.

Lemma meshes_Engine (h : option string) (c : Config) :
  meshes (Engine h c) = flat_map snd (part_table (Engine h c)).
Proof. reflexivity. Qed.

(** Membership in some array of a table is membership in the
    concatenation of its arrays. *)
Lemma in_table_flat (t : list (string * list nat)) (i : nat) :
  (exists n a, In (n, a) t /\ In i a) <-> In i (flat_map snd t).
Proof.
  rewrite in_flat_map. split.
  - intros (n & a & Ht & Hi). exists (n, a). auto.
  - intros ([n a] & Ht & Hi). exists n, a. auto.
Qed.

(** Arrays under different names of a table whose concatenation has
    no duplicate share no index. *)
Lemma NoDup_flat_disjoint (t : list (string * list nat)) :
  NoDup (flat_map snd t) ->
  forall n1 a1 n2 a2 i,
    In (n1, a1) t -> In (n2, a2) t -> n1 <> n2 ->
    In i a1 -> In i a2 -> False.
Proof.
  induction t as [|[n a] t IH]; simpl; intros ND n1 a1 n2 a2 i H1 H2 Hne I1 I2.
  - exact H1.
  - assert (Hcross : forall j, In j a -> In j (flat_map snd t) -> False).
    { intros j Ha Ht. revert ND Ha Ht. clear. induction a as [|k a IHa]; simpl.
      - intros _ [].
      - intros ND [->|Ha] Ht.
        + inversion ND as [|? ? Hk _]. apply Hk, in_or_app. now right.
        + inversion ND. eauto. }
    destruct H1 as [E1|H1], H2 as [E2|H2].
    + congruence.
    + inversion E1; subst. apply (Hcross i I1).
      apply in_table_flat. eauto.
    + inversion E2; subst. apply (Hcross i I2).
      apply in_table_flat. eauto.
    + apply (IH (NoDup_app_remove_l _ _ ND) n1 a1 n2 a2 i); assumption.
Qed.

Lemma NoDup_by_nodup (l : list nat) : nodup Nat.eq_dec l = l -> NoDup l.
Proof. intros <-. apply NoDup_nodup. Qed.

Lemma covers_range (l : list nat) (n : nat) :
  forallb (fun i => existsb (Nat.eqb i) l) (seq 0 n) = true ->
  forallb (fun i => Nat.ltb i n) l = true ->
  forall i, In i l <-> i < n.
Proof.
  intros Hall Hlt i. rewrite forallb_forall in Hall, Hlt. split.
  - intros Hi. apply Nat.ltb_lt. auto.
  - intros Hi. specialize (Hall i). rewrite in_seq in Hall.
    assert (E : existsb (Nat.eqb i) l = true) by (apply Hall; lia).
    apply existsb_exists in E. destruct E as (j & Hj & Eij).
    apply Nat.eqb_eq in Eij. now subst.
Qed.

(** The arrays of the table list the numbers below 60 and no other. *)
Lemma part_table_covers (h : option string) (c : Config) (i : nat) :
  (exists n a, In (n, a) (part_table (Engine h c)) /\ In i a) <-> i < 60.
Proof.
  rewrite in_table_flat, part_table_Engine.
  apply covers_range; vm_compute; reflexivity.
Qed.

End PartTable.

(** C1. For each of the six part names the table of the rendered tree
    gives the documented array of mesh numbers (whatever the state);
    arrays under different names are disjoint; and a number belongs to
    some array exactly when it is one of 0, ..., 59. *)
Theorem part_table_partition (h : option string) (c : Config) :
  let t := part_table (Engine h c) in
  map fst t = part_names /\
  (lookup "gear" t = Some [0; 1; 2; 3; 4; 5; 6; 7; 8; 9; 10; 13] /\
   lookup "shaft" t = Some [29; 30; 31; 32; 33] /\
   lookup "cylinder" t = Some [11; 12; 14; 19; 34; 39; 47; 52] /\
   lookup "piston1" t =
     Some [15; 16; 17; 18; 20; 21; 22; 23; 24; 25; 26; 27; 28] /\
   lookup "piston2" t = Some [35; 36; 37; 38; 40; 41; 42; 43; 44; 45; 46] /\
   lookup "piston3" t = Some [48; 49; 50; 51; 53; 54; 55; 56; 57; 58; 59]) /\
  (forall n1 a1 n2 a2 i,
      In (n1, a1) t -> In (n2, a2) t -> n1 <> n2 ->
      In i a1 -> In i a2 -> False) /\
  (forall i, (exists n a, In (n, a) t /\ In i a) <-> i < 60).
Proof.
  intros t. subst t. rewrite part_table_Engine.
  split; [reflexivity|]. split; [repeat split|]. split.
  - apply NoDup_flat_disjoint, NoDup_by_nodup. vm_compute. reflexivity.
  - intros i. rewrite <- (part_table_Engine h c). apply part_table_covers.
Qed.

(** ** Dispatch by name *)

Section Dispatch.

Lemma hovered_is_true (h : option string) (name : string) :
  hovered_is h name = true <-> h = Some name.
Proof.
  destruct h as [p|]; simpl.
  - rewrite String.eqb_eq. split; congruence.
  - split; discriminate.
Qed.

(** The default branch of the [switch]. *)
Lemma pton_default (part : option string) (stat : bool) (c : Config) :
  (forall name, In name part_names -> part <> Some name) ->
  pton part stat c =
    mkConfig stat stat stat stat stat stat (all c) (autoRotate c).
Proof.
  intros Hnot. destruct part as [p|]; [|reflexivity].
  unfold pton.
  repeat match goal with
  | |- context [p =? ?n] =>
      let E := fresh "E" in
      destruct (String.eqb_spec p n) as [E|E];
      [exfalso; apply (Hnot n); [simpl; tauto | congruence]|]
  end.
  reflexivity.
Qed.

(** A known name writes its own check box and no other value. *)
Lemma pton_known (name : string) (stat : bool) (c : Config) :
  In name part_names ->
  checked (pton (Some name) stat c) name = stat /\
  (forall other, other <> name ->
     checked (pton (Some name) stat c) other = checked c other) /\
  all (pton (Some name) stat c) = all c /\
  autoRotate (pton (Some name) stat c) = autoRotate c.
Proof.
  simpl. intros H.
  repeat (destruct H as [<-|H]; [
    repeat split; try reflexivity;
    intros other Hne; unfold checked;
    repeat match goal with
    | |- context [other =? ?n] => destruct (String.eqb_spec other n)
    end; try reflexivity; congruence |]).
  destruct H.
Qed.

End Dispatch.

(** ** The selection of the rendered tree *)

Section Selection.

Lemma highlight_In (e : Element) (i : nat) :
  highlight e i = true <-> In i (selected e).
Proof.
  unfold highlight. rewrite existsb_exists. split.
  - intros (j & Hj & E). apply Nat.eqb_eq in E. now subst.
  - intros Hi. exists i. split; [assumption | apply Nat.eqb_refl].
Qed.

(** The enabled flag of each [Select] of the tree. *)
Lemma enabled_of_Engine (h : option string) (c : Config) (name : string) :
  In name part_names ->
  enabled_of name (Engine h c) = Some (hovered_is h name || checked c name).
Proof.
  simpl. intros H.
  repeat (destruct H as [<-|H]; [reflexivity|]). destruct H.
Qed.

(** The selection is what the inner groups add, one after the other,
    followed by what the outer group adds. *)
Lemma selected_Engine (h : option string) (c : Config) :
  selected (Engine h c) =
    (flat_map
       (fun p => if hovered_is h (fst p) || checked c (fst p)
                 then snd p else [])
       (part_table (Engine h c))
     ++ (if all c then meshes (Engine h c) else []))%list.
Proof.
  rewrite part_table_Engine. cbn. rewrite !app_nil_r, <- !app_assoc.
  reflexivity.
Qed.

(** A mesh is highlighted exactly when [all] is checked, or the part
    that owns it is hovered or checked. *)
Lemma highlight_Engine (h : option string) (c : Config) (i : nat) :
  highlight (Engine h c) i = true <->
  (all c = true /\ In i (meshes (Engine h c))) \/
  (exists name arr,
      In (name, arr) (part_table (Engine h c)) /\ In i arr /\
      (hovered_is h name || checked c name) = true).
Proof.
  rewrite highlight_In, selected_Engine, in_app_iff, in_flat_map.
  split.
  - intros [([name arr] & Ht & Hi)|Hi].
    + right. exists name, arr. simpl in Hi.
      destruct (hovered_is h name || checked c name); [auto | destruct Hi].
    + left. destruct (all c); [auto | destruct Hi].
  - intros [[Hall Hi]|(name & arr & Ht & Hi & Hen)].
    + right. now rewrite Hall.
    + left. exists (name, arr). simpl. rewrite Hen. auto.
Qed.

(** The parent of a mesh is the [Select] of the part that lists it. *)
Lemma parent_name_Engine (h : option string) (c : Config)
    (name : string) (arr : list nat) (i : nat) :
  In (name, arr) (part_table (Engine h c)) -> In i arr ->
  parent_name i "" (Engine h c) = Some name.
Proof.
  rewrite part_table_Engine. simpl In. intros Ht.
  repeat (destruct Ht as [E|Ht]; [
    injection E as <- <-; simpl In; intros Hi;
    repeat (destruct Hi as [<-|Hi]; [reflexivity|]); destruct Hi |]).
  destruct Ht.
Qed.

Lemma part_table_names (h : option string) (c : Config)
    (name : string) (arr : list nat) :
  In (name, arr) (part_table (Engine h c)) -> In name part_names.
Proof.
  intros Ht. apply (in_map fst) in Ht.
  rewrite part_table_Engine in Ht. exact Ht.
Qed.

End Selection.

(** ** Hover, check boxes and highlight *)

(** A run of the two handlers from the initial state: a double click
    on mesh 30 hovers and checks the shaft and highlights its meshes;
    leaving the object clears both. *)
Example double_click_mesh_30 :
  onDoubleClick 30 initial_state =
    mkState (Some "shaft")
      (mkConfig false true false false false false false false) /\
  selected (render (onDoubleClick 30 initial_state)) = [29; 30; 31; 32; 33] /\
  onPointerOut (onDoubleClick 30 initial_state) = initial_state.
Proof. repeat split. Qed.

(** C2. For every part name and every state, the [enabled] flag of the
    [Select] of that part is set exactly when the part is the hovered
    one or its check box is checked. *)
Theorem enabled_iff_hovered_or_checked (s : State) (name : string) :
  In name part_names ->
  exists en,
    enabled_of name (render s) = Some en /\
    (en = true <-> hovered s = Some name \/ checked (config s) name = true).
Proof.
  intros Hname. exists (hovered_is (hovered s) name || checked (config s) name).
  split.
  - now apply enabled_of_Engine.
  - now rewrite orb_true_iff, hovered_is_true.
Qed.

Lemma enabled_iff_hovered_or_checked_witness :
  exists en,
    enabled_of "piston2"
      (render (mkState (Some "gear")
                 (mkConfig false false false false true false false false)))
      = Some en /\
    (en = true <->
       Some "gear" = Some "piston2" \/
       checked (mkConfig false false false false true false false false)
         "piston2" = true).
Proof.
  apply (enabled_iff_hovered_or_checked
           (mkState (Some "gear")
              (mkConfig false false false false true false false false))
           "piston2").
  simpl. tauto.
Defined.

(** C3 as stated fails: leaving the object with a checked and hovered
    part does not keep its check box. *)
Lemma pointer_out_keeps_checked_fails :
  ~ (forall (name : string) (s : State),
       In name part_names ->
       checked (config s) name = true ->
       hovered s = Some name ->
       checked (config (onPointerOut s)) name = checked (config s) name).
Proof.
  intros H.
  specialize (H "gear"
    (mkState (Some "gear")
       (mkConfig true false false false false false false false))).
  simpl in H. discriminate H; auto.
Qed.

(** C3, amended. For every part name, from a state where the part is
    checked and hovered, the pointer-out event unchecks the part and
    clears the hovered part; [all] and [autoRotate] keep their values. *)
Theorem pointer_out_unchecks (name : string) (s : State) :
  In name part_names ->
  checked (config s) name = true ->
  hovered s = Some name ->
  checked (config (onPointerOut s)) name = false /\
  hovered (onPointerOut s) = None /\
  all (config (onPointerOut s)) = all (config s) /\
  autoRotate (config (onPointerOut s)) = autoRotate (config s).
Proof.
  intros Hname _ _. repeat split.
  simpl in Hname.
  repeat (destruct Hname as [<-|Hname]; [reflexivity|]). destruct Hname.
Qed.

Lemma pointer_out_unchecks_witness :
  checked
    (config
       (onPointerOut
          (mkState (Some "shaft")
             (mkConfig false true false false false false false false))))
    "shaft" = false.
Proof.
  apply (pointer_out_unchecks "shaft"
           (mkState (Some "shaft")
              (mkConfig false true false false false false false false)));
    simpl; auto.
Defined.

(** C4. For every [part] that is none of the six names, [null]
    included, [pton] writes [stat] to the six check boxes and to
    nothing else; with [stat = true] every mesh of the table is then
    highlighted, whatever is hovered. *)
Theorem pton_unknown_selects_all
    (part : option string) (stat : bool) (c : Config) :
  (forall name, In name part_names -> part <> Some name) ->
  pton part stat c =
    mkConfig stat stat stat stat stat stat (all c) (autoRotate c) /\
  (forall name, In name part_names -> checked (pton part stat c) name = stat) /\
  (stat = true ->
   forall h i, i < 60 -> highlight (Engine h (pton part stat c)) i = true).
Proof.
  intros Hnot. rewrite (pton_default part stat c Hnot). split; [reflexivity|].
  split.
  - simpl. intros name H.
    repeat (destruct H as [<-|H]; [reflexivity|]). destruct H.
  - intros -> h i Hi. apply highlight_Engine. right.
    apply (part_table_covers h c) in Hi. destruct Hi as (name & arr & Ht & Hi).
    exists name, arr. rewrite part_table_Engine in *. repeat split; try assumption.
    apply orb_true_iff. right.
    simpl in Ht.
    repeat (destruct Ht as [E|Ht]; [injection E as <- <-; reflexivity|]).
    destruct Ht.
Qed.

Lemma pton_unknown_selects_all_witness :
  pton (Some "crank") true initial =
    mkConfig true true true true true true false false.
Proof.
  apply (pton_unknown_selects_all (Some "crank") true initial).
  simpl. intros name H.
  repeat (destruct H as [<-|H]; [discriminate|]). destruct H.
Defined.

(** C5. For every mesh listed by one of the six parts, a double click
    on it makes the owning part the hovered one and checks its box. *)
Theorem double_click_selects_owner
    (s : State) (name : string) (arr : list nat) (i : nat) :
  In (name, arr) (part_table (render s)) -> In i arr ->
  hovered (onDoubleClick i s) = Some name /\
  checked (config (onDoubleClick i s)) name = true.
Proof.
  intros Ht Hi. unfold onDoubleClick, render in *.
  rewrite (parent_name_Engine _ _ name arr i Ht Hi). simpl. split; [reflexivity|].
  apply pton_known. exact (part_table_names _ _ _ _ Ht).
Qed.

Lemma double_click_selects_owner_witness :
  hovered (onDoubleClick 19 initial_state) = Some "cylinder" /\
  checked (config (onDoubleClick 19 initial_state)) "cylinder" = true.
Proof.
  apply (double_click_selects_owner initial_state "cylinder"
           [11; 12; 14; 19; 34; 39; 47; 52] 19); simpl; tauto.
Defined.

(** C8. With "shaft" hovered, no box checked and [all] unchecked, the
    highlighted meshes are 29, 30, 31, 32 and 33, and no other. *)
Theorem hover_shaft_highlights_its_meshes (rot : bool) (i : nat) :
  highlight
    (render (mkState (Some "shaft")
               (mkConfig false false false false false false false rot))) i
    = true
  <-> In i [29; 30; 31; 32; 33].
Proof. rewrite highlight_In. reflexivity. Qed.

(** C9. When [all] is checked every mesh of the table is highlighted,
    whatever the six check boxes and the hovered part are. *)
Theorem all_highlights_every_mesh
    (s : State) (name : string) (arr : list nat) (i : nat) :
  all (config s) = true ->
  In (name, arr) (part_table (render s)) -> In i arr ->
  highlight (render s) i = true.
Proof.
  intros Hall Ht Hi. apply highlight_Engine. left. split; [assumption|].
  unfold render in *. rewrite meshes_Engine. apply in_table_flat. eauto.
Qed.

Lemma all_highlights_every_mesh_witness :
  highlight
    (render (mkState (Some "gear")
               (mkConfig false false true false false false true false))) 57
    = true.
Proof.
  apply (all_highlights_every_mesh
           (mkState (Some "gear")
              (mkConfig false false true false false false true false))
           "piston3" [48; 49; 50; 51; 53; 54; 55; 56; 57; 58; 59] 57);
    simpl; tauto.
Defined.

(** C10. After a pointer-out event nothing is hovered and the six
    check boxes are all unchecked, whatever the state before. *)
Theorem pointer_out_clears_everything (s : State) :
  hovered (onPointerOut s) = None /\
  config (onPointerOut s) =
    mkConfig false false false false false false
      (all (config s)) (autoRotate (config s)) /\
  (forall name, checked (config (onPointerOut s)) name = false).
Proof.
  split; [reflexivity|]. split; [reflexivity|].
  intros name. simpl. unfold checked. simpl.
  repeat match goal with
  | |- context [name =? ?n] => destruct (name =? n)
  end; reflexivity.
Qed.

(** ** The pivot reset button *)

Module PivotFacts.
Section Button.

Import Pivot.
Context `{Three}.

Lemma set_spread_toArray (v : Vector3 num) : set_spread (toArray v) = v.
Proof. now destruct v. Qed.

(** The camera part of the button leaves the refs alone. *)
Lemma reset_refs (v : Viewer) :
  reset_current (reset v) = reset_current (recenter v) /\
  group_current (reset v) = group_current (recenter v).
Proof.
  unfold reset. destruct (controls_reset _ _). split; reflexivity.
Qed.

Lemma recenter_sets_guard (v : Viewer) : reset_current (recenter v) = true.
Proof.
  unfold recenter. destruct (reset_current v) eqn:E; simpl; auto.
Qed.

Lemma recenter_guarded (v : Viewer) :
  reset_current v = true -> recenter v = v.
Proof. unfold recenter. now intros ->. Qed.

(** C6. Pressing the button twice leaves the root group, position
    included, as the first press left it: after the first press the
    guard is set, and under the guard the recentering does nothing. *)
Theorem reset_twice_keeps_group (v : Viewer) :
  group_current (reset (reset v)) = group_current (reset v) /\
  position (group_current (reset (reset v)))
    = position (group_current (reset v)) /\
  reset_current (reset v) = true /\
  recenter (reset v) = reset v.
Proof.
  assert (G : reset_current (reset v) = true).
  { rewrite (proj1 (reset_refs v)). apply recenter_sets_guard. }
  assert (R : recenter (reset v) = reset v) by now apply recenter_guarded.
  assert (E : group_current (reset (reset v)) = group_current (reset v)).
  { now rewrite (proj2 (reset_refs (reset v))), R. }
  rewrite E. auto.
Qed.

(** C7. On the first press (guard not yet set) the position of the
    root group becomes the negated center of the bounding box of the
    group; then the controls are reset and the up vector of the
    camera is set to (0, 1, 0). *)
Theorem reset_first_recenters (v : Viewer) :
  reset_current v = false ->
  position (group_current (reset v))
    = negate (getCenter (setFromObject (group_current v))) /\
  body (group_current (reset v)) = body (group_current v) /\
  controls (reset v) = fst (controls_reset (controls v) (camera v)) /\
  optics (camera (reset v))
    = optics (snd (controls_reset (controls v) (camera v))) /\
  up (camera (reset v)) = mkVector3 zero one zero.
Proof.
  intros Hfirst. unfold reset, recenter. rewrite Hfirst.
  cbn [negb group_current controls camera reset_current].
  destruct (controls_reset _ _) as [ctl cam].
  cbn [group_current position body controls camera optics up fst snd].
  rewrite set_spread_toArray. repeat split.
Qed.

End Button.
End PivotFacts.

Lemma reset_first_recenters_witness :
  Pivot.position (Pivot.group_current (Pivot.reset Pivot.viewerZ))
    = (Pivot.mkVector3 (-12) (-21) (-30))%Z /\
  Pivot.up (Pivot.camera (Pivot.reset Pivot.viewerZ))
    = (Pivot.mkVector3 0 1 0)%Z.
Proof.
  destruct (PivotFacts.reset_first_recenters Pivot.viewerZ)
    as (P & _ & _ & _ & U); [reflexivity|].
  split; [exact P | exact U].
Defined.

(** * Further properties *)

(** ** Laws of [pton] *)

Section DispatchLaws.

(** Every call of [pton] is one of seven writes, whatever the state
    and the status: one of the six boxes, or all six. *)
Lemma pton_shape (part : option string) :
  (exists k,
      In k [k_gear; k_shaft; k_cylinder; k_piston1; k_piston2; k_piston3] /\
      forall stat c, pton part stat c = put k stat c) \/
  (forall stat c,
      pton part stat c =
        mkConfig stat stat stat stat stat stat (all c) (autoRotate c)).
Proof.
  destruct part as [p|]; [|right; reflexivity].
  unfold pton.
  destruct (p =? "gear");
    [left; exists k_gear; split; [simpl; tauto | reflexivity]|].
  destruct (p =? "shaft");
    [left; exists k_shaft; split; [simpl; tauto | reflexivity]|].
  destruct (p =? "cylinder");
    [left; exists k_cylinder; split; [simpl; tauto | reflexivity]|].
  destruct (p =? "piston1");
    [left; exists k_piston1; split; [simpl; tauto | reflexivity]|].
  destruct (p =? "piston2");
    [left; exists k_piston2; split; [simpl; tauto | reflexivity]|].
  destruct (p =? "piston3");
    [left; exists k_piston3; split; [simpl; tauto | reflexivity]|].
  right. reflexivity.
Qed.

Lemma pton_keeps_rest (part : option string) (stat : bool) (c : Config) :
  all (pton part stat c) = all c /\
  autoRotate (pton part stat c) = autoRotate c.
Proof.
  destruct (pton_shape part) as [(k & Hk & E)|E]; rewrite E; [|split; reflexivity].
  simpl in Hk.
  repeat (destruct Hk as [<-|Hk]; [split; reflexivity|]). destruct Hk.
Qed.

End DispatchLaws.

(** X1. For one of the six names [pton] writes the status to the box
    of that part and leaves the five other boxes, [all] and
    [autoRotate] as they were. *)
Theorem pton_writes_one_box (name : string) (stat : bool) (c : Config) :
  In name part_names ->
  checked (pton (Some name) stat c) name = stat /\
  (forall other, other <> name ->
     checked (pton (Some name) stat c) other = checked c other) /\
  all (pton (Some name) stat c) = all c /\
  autoRotate (pton (Some name) stat c) = autoRotate c.
Proof. apply pton_known. Qed.

Lemma pton_writes_one_box_witness :
  checked (pton (Some "piston1") true initial) "piston1" = true /\
  (forall other, other <> "piston1" ->
     checked (pton (Some "piston1") true initial) other
       = checked initial other) /\
  all (pton (Some "piston1") true initial) = all initial /\
  autoRotate (pton (Some "piston1") true initial) = autoRotate initial.
Proof.
  apply (pton_writes_one_box "piston1" true initial). simpl. tauto.
Defined.

Lemma pton_last_write_wins_aux
    (part : option string) (s1 s2 : bool) (c : Config) :
  pton part s2 (pton part s1 c) = pton part s2 c.
Proof.
  destruct (pton_shape part) as [(k & Hk & E)|E]; rewrite !E; [|reflexivity].
  simpl in Hk.
  repeat (destruct Hk as [<-|Hk]; [reflexivity|]). destruct Hk.
Qed.

(** X2. Calling [pton] twice for the same part keeps the second
    status only: the call is idempotent and the last write wins, for
    known names, unknown names and [null] alike. *)
Theorem pton_last_write_wins
    (part : option string) (s1 s2 : bool) (c : Config) :
  pton part s2 (pton part s1 c) = pton part s2 c.
Proof. apply pton_last_write_wins_aux. Qed.

(** X3. Two calls of [pton] with the same status commute, whatever
    the two parts are. *)
Theorem pton_same_status_commute
    (p1 p2 : option string) (stat : bool) (c : Config) :
  pton p1 stat (pton p2 stat c) = pton p2 stat (pton p1 stat c).
Proof.
  destruct (pton_shape p1) as [(k1 & H1 & E1)|E1],
           (pton_shape p2) as [(k2 & H2 & E2)|E2];
    rewrite ?E1, ?E2; try reflexivity.
  - simpl in H1, H2.
    repeat (destruct H1 as [<-|H1]; [
      repeat (destruct H2 as [<-|H2]; [reflexivity|]); destruct H2 |]).
    destruct H1.
  - simpl in H1.
    repeat (destruct H1 as [<-|H1]; [reflexivity|]). destruct H1.
  - simpl in H2.
    repeat (destruct H2 as [<-|H2]; [reflexivity|]). destruct H2.
Qed.

(** X4. Calls of [pton] for two different known parts commute, also
    with different statuses: each writes its own box. *)
Theorem pton_distinct_parts_commute
    (n1 n2 : string) (s1 s2 : bool) (c : Config) :
  In n1 part_names -> In n2 part_names -> n1 <> n2 ->
  pton (Some n1) s1 (pton (Some n2) s2 c)
    = pton (Some n2) s2 (pton (Some n1) s1 c).
Proof.
  simpl. intros H1 H2 Hne.
  repeat (destruct H1 as [<-|H1]; [
    repeat (destruct H2 as [<-|H2]; [
      first [reflexivity | exfalso; apply Hne; reflexivity] |]);
    destruct H2 |]).
  destruct H1.
Qed.

Lemma pton_distinct_parts_commute_witness :
  pton (Some "gear") true (pton (Some "piston3") false initial)
    = pton (Some "piston3") false (pton (Some "gear") true initial).
Proof.
  apply (pton_distinct_parts_commute "gear" "piston3" true false initial);
    simpl; try tauto. discriminate.
Defined.

(** X5. The fallback of [pton] for an unknown name or [null] is the
    same as calling [pton] for each of the six parts in turn with the
    same status. *)
Theorem pton_unknown_is_each_part
    (part : option string) (stat : bool) (c : Config) :
  (forall name, In name part_names -> part <> Some name) ->
  pton part stat c
    = fold_left (fun acc name => pton (Some name) stat acc) part_names c.
Proof.
  intros Hnot. rewrite (pton_default part stat c Hnot). reflexivity.
Qed.

Lemma pton_unknown_is_each_part_witness :
  pton None false (mkConfig true false true false true false true true)
    = fold_left (fun acc name => pton (Some name) false acc) part_names
        (mkConfig true false true false true false true true).
Proof.
  apply (pton_unknown_is_each_part None false
           (mkConfig true false true false true false true true)).
  intros name _. discriminate.
Defined.

(** ** Laws of the pointer handlers *)

Section HandlerLaws.

(** The parent of any mesh of the tree is one of the six parts. *)
Lemma parent_name_is_part (h : option string) (c : Config)
    (i : nat) (p : string) :
  parent_name i "" (Engine h c) = Some p -> In p part_names.
Proof.
  cbn -[Nat.eqb].
  repeat match goal with
  | |- context [Nat.eqb ?k i] =>
      destruct (Nat.eqb k i);
      [intros E; injection E as <-; simpl; tauto|]
  end.
  discriminate.
Qed.

(** A mesh has a parent in the tree exactly when its number is below
    60. *)
Lemma parent_name_some (h : option string) (c : Config) (i : nat) :
  i < 60 -> exists p, parent_name i "" (Engine h c) = Some p.
Proof.
  intros Hi. apply (part_table_covers h c) in Hi.
  destruct Hi as (name & arr & Ht & Hi).
  exists name. now apply (parent_name_Engine h c name arr).
Qed.

Lemma double_click_keeps_rest (i : nat) (s : State) :
  all (config (onDoubleClick i s)) = all (config s) /\
  autoRotate (config (onDoubleClick i s)) = autoRotate (config s).
Proof.
  unfold onDoubleClick. destruct (parent_name _ _ _) as [part|].
  - cbn [config]. apply pton_keeps_rest.
  - split; reflexivity.
Qed.

Lemma pointer_keeps_rest (ev : Event) (s : State) :
  is_pointer ev = true ->
  all (config (handle ev s)) = all (config s) /\
  autoRotate (config (handle ev s)) = autoRotate (config s).
Proof.
  destruct ev; simpl; intros Hp; try discriminate.
  - apply double_click_keeps_rest.
  - split; reflexivity.
Qed.

Lemma run_snoc (evs : list Event) (ev : Event) (s : State) :
  run (evs ++ [ev]) s = handle ev (run evs s).
Proof. unfold run. now rewrite fold_left_app. Qed.

End HandlerLaws.

(** X6. A double click on a mesh of a part changes no other box and
    neither [all] nor [autoRotate]; in particular it unchecks nothing:
    a box checked before is checked after. *)
Theorem double_click_unchecks_nothing
    (s : State) (name : string) (arr : list nat) (i : nat) :
  In (name, arr) (part_table (render s)) -> In i arr ->
  (forall other, other <> name ->
     checked (config (onDoubleClick i s)) other = checked (config s) other) /\
  (forall any, checked (config s) any = true ->
     checked (config (onDoubleClick i s)) any = true) /\
  all (config (onDoubleClick i s)) = all (config s) /\
  autoRotate (config (onDoubleClick i s)) = autoRotate (config s).
Proof.
  intros Ht Hi.
  assert (Hname : In name part_names) by exact (part_table_names _ _ _ _ Ht).
  unfold onDoubleClick, render in *.
  rewrite (parent_name_Engine _ _ name arr i Ht Hi). simpl.
  destruct (pton_known name true (config s) Hname) as (Hown & Hother & Hall & Hrot).
  repeat split; try assumption.
  intros any Hany. destruct (string_dec any name) as [->|Hne].
  - exact Hown.
  - now rewrite Hother.
Qed.

Lemma double_click_unchecks_nothing_witness :
  checked
    (config
       (onDoubleClick 30
          (mkState None
             (mkConfig true false false false false false false false))))
    "gear" = true.
Proof.
  apply (double_click_unchecks_nothing
           (mkState None
              (mkConfig true false false false false false false false))
           "shaft" [29; 30; 31; 32; 33] 30); simpl; tauto.
Defined.

(** X7. Leaving the object wipes what the pointer did before: after
    any sequence of double clicks and pointer-outs, a pointer-out
    gives the same state as a pointer-out alone. *)
Theorem pointer_out_absorbs (evs : list Event) (s : State) :
  forallb is_pointer evs = true ->
  onPointerOut (run evs s) = onPointerOut s.
Proof.
  induction evs as [|ev evs IH] using rev_ind; [reflexivity|].
  rewrite forallb_app, andb_true_iff. simpl. rewrite andb_true_r.
  intros [Hevs Hev]. rewrite run_snoc, <- (IH Hevs).
  destruct (pointer_keeps_rest ev (run evs s) Hev) as [Hall Hrot].
  unfold onPointerOut. simpl. now rewrite Hall, Hrot.
Qed.

Lemma pointer_out_absorbs_witness :
  onPointerOut
    (run [DoubleClick 3; DoubleClick 40; PointerOut; DoubleClick 59]
       (mkState None
          (mkConfig false true false false false false true false)))
    = onPointerOut
        (mkState None
           (mkConfig false true false false false false true false)).
Proof.
  apply (pointer_out_absorbs
           [DoubleClick 3; DoubleClick 40; PointerOut; DoubleClick 59]).
  reflexivity.
Defined.

Section HighlightLaws.

Lemma part_table_NoDup (h : option string) (c : Config) :
  NoDup (flat_map snd (part_table (Engine h c))).
Proof.
  rewrite part_table_Engine. apply NoDup_by_nodup. vm_compute. reflexivity.
Qed.

(** A mesh is listed by one part only. *)
Lemma owner_unique (h : option string) (c : Config)
    (n1 n2 : string) (a1 a2 : list nat) (i : nat) :
  In (n1, a1) (part_table (Engine h c)) ->
  In (n2, a2) (part_table (Engine h c)) ->
  In i a1 -> In i a2 -> n1 = n2.
Proof.
  intros H1 H2 I1 I2. destruct (string_dec n1 n2) as [E|Hne]; [exact E|].
  exfalso.
  exact (NoDup_flat_disjoint _ (part_table_NoDup h c) n1 a1 n2 a2 i
           H1 H2 Hne I1 I2).
Qed.

Lemma pointer_out_checked (s : State) (name : string) :
  checked (config (onPointerOut s)) name = false.
Proof.
  unfold checked. simpl.
  repeat match goal with
  | |- context [name =? ?n] => destruct (name =? n)
  end; reflexivity.
Qed.

End HighlightLaws.

(** X8. After a pointer-out a mesh is highlighted exactly when [all]
    is checked and the mesh is one of the 60 of the table: without
    [all] nothing stays highlighted. *)
Theorem pointer_out_highlight (s : State) (i : nat) :
  highlight (render (onPointerOut s)) i = true
  <-> all (config s) = true /\ i < 60.
Proof.
  unfold render. rewrite highlight_Engine, meshes_Engine.
  rewrite <- in_table_flat, part_table_covers.
  split.
  - intros [H|(name & arr & _ & _ & Hen)]; [exact H|].
    change (hovered (onPointerOut s)) with (@None string) in Hen.
    rewrite pointer_out_checked in Hen. discriminate.
  - intros H. left. exact H.
Qed.

(** X9. The highlight of a mesh, as a function of the state: a mesh
    listed by a part is highlighted exactly when [all] is checked, or
    the part is the hovered one, or the box of the part is checked;
    the boxes and the hover of the other parts play no role. A number
    from 60 on is never highlighted. *)
Theorem highlight_by_owner (s : State) (i : nat) :
  (forall name arr,
      In (name, arr) (part_table (render s)) -> In i arr ->
      highlight (render s) i
        = all (config s) || hovered_is (hovered s) name
          || checked (config s) name) /\
  (60 <= i -> highlight (render s) i = false).
Proof.
  unfold render. split.
  - intros name arr Ht Hi. apply eq_true_iff_eq.
    rewrite highlight_Engine, <- orb_assoc.
    rewrite (orb_true_iff (all (config s))). split.
    + intros [[Hall _]|(n' & a' & Ht' & Hi' & Hen)]; [tauto|].
      right. now rewrite <- (owner_unique _ _ _ _ _ _ _ Ht' Ht Hi' Hi).
    + intros [Hall|Hen].
      * left. split; [exact Hall|].
        rewrite meshes_Engine. apply in_table_flat. eauto.
      * right. eauto.
  - intros Hge. apply not_true_is_false. rewrite highlight_Engine.
    rewrite meshes_Engine, <- in_table_flat, part_table_covers.
    intros [[_ Hlt]|(name & arr & Ht & Hi & _)]; [lia|].
    assert (i < 60) by (apply (part_table_covers (hovered s) (config s)); eauto).
    lia.
Qed.

(** X10. A double click on a mesh highlights every mesh of the part
    that owns it, not the clicked mesh alone. *)
Theorem double_click_highlights_part
    (s : State) (name : string) (arr : list nat) (i j : nat) :
  In (name, arr) (part_table (render s)) -> In i arr -> In j arr ->
  highlight (render (onDoubleClick i s)) j = true.
Proof.
  intros Ht Hi Hj. unfold onDoubleClick, render in *.
  rewrite (parent_name_Engine _ _ name arr i Ht Hi).
  apply highlight_Engine. right. exists name, arr.
  rewrite part_table_Engine in *. repeat split; try assumption.
  simpl. now rewrite String.eqb_refl.
Qed.

Lemma double_click_highlights_part_witness :
  highlight (render (onDoubleClick 11 initial_state)) 52 = true.
Proof.
  apply (double_click_highlights_part initial_state "cylinder"
           [11; 12; 14; 19; 34; 39; 47; 52] 11 52); simpl; tauto.
Defined.

(** X11. Under the pointer handlers the hovered part is always a
    checked one: if the hovered part of a state, when there is one, is
    one of the six and checked, the same holds after any sequence of
    double clicks and pointer-outs. *)
Theorem pointer_keeps_hover_checked (evs : list Event) (s : State) :
  forallb is_pointer evs = true ->
  hover_is_checked s -> hover_is_checked (run evs s).
Proof.
  induction evs as [|ev evs IH] using rev_ind; [trivial|].
  rewrite forallb_app, andb_true_iff. simpl. rewrite andb_true_r.
  intros [Hevs Hev] Hs. rewrite run_snoc.
  specialize (IH Hevs Hs). revert IH. generalize (run evs s) as t.
  intros t Ht. destruct ev as [i| |k v]; [| |discriminate Hev].
  - cbn [handle]. unfold onDoubleClick, render.
    destruct (parent_name i "" _) as [p|] eqn:E; [|exact Ht].
    intros name Hh. simpl in Hh. injection Hh as <-.
    assert (Hp : In p part_names) by exact (parent_name_is_part _ _ _ _ E).
    split; [exact Hp|]. cbn [config]. now apply pton_known.
  - intros name Hh. discriminate Hh.
Qed.

Lemma pointer_keeps_hover_checked_witness :
  hover_is_checked
    (run [DoubleClick 7; DoubleClick 45; PointerOut; DoubleClick 31]
       initial_state).
Proof.
  apply (pointer_keeps_hover_checked
           [DoubleClick 7; DoubleClick 45; PointerOut; DoubleClick 31]
           initial_state).
  - reflexivity.
  - intros name Hh. discriminate Hh.
Defined.

(** X12. The hovered part is never anything but one of the six names:
    this holds after any sequence of double clicks, pointer-outs and
    edits of the panel, from any state where it holds (the initial
    state, with nothing hovered, is one). *)
Theorem hovered_is_always_a_part (evs : list Event) (s : State) :
  (forall name, hovered s = Some name -> In name part_names) ->
  forall name, hovered (run evs s) = Some name -> In name part_names.
Proof.
  induction evs as [|ev evs IH] using rev_ind; [trivial|].
  intros Hs. rewrite run_snoc.
  specialize (IH Hs). revert IH. generalize (run evs s) as t.
  intros t Ht name. destruct ev as [i| |k v]; simpl.
  - unfold onDoubleClick, render.
    destruct (parent_name i "" _) as [p|] eqn:E; [|apply Ht].
    simpl. intros Hh. injection Hh as <-.
    exact (parent_name_is_part _ _ _ _ E).
  - discriminate.
  - apply Ht.
Qed.

Lemma hovered_is_always_a_part_witness :
  hovered
    (run [Panel k_all true; DoubleClick 20; Panel k_piston1 false]
       initial_state) = Some "piston1" /\
  In "piston1" part_names.
Proof.
  split; [reflexivity|].
  apply (hovered_is_always_a_part
           [Panel k_all true; DoubleClick 20; Panel k_piston1 false]
           initial_state).
  - intros name Hh. discriminate Hh.
  - reflexivity.
Defined.

(** ** The glTF nodes *)

Section Nodes.

Variable A : Type.
Variable nodes : string -> option A.

Lemma read_nodes_app (l1 l2 : list nat) :
  read_nodes nodes (l1 ++ l2) =
    match read_nodes nodes l1 with
    | Some a =>
        match read_nodes nodes l2 with
        | Some b => Some (a ++ b)%list
        | None => None
        end
    | None => None
    end.
Proof.
  induction l1 as [|n l1 IH]; simpl.
  - now destruct (read_nodes nodes l2).
  - destruct (Mesh_node nodes n); [|reflexivity].
    rewrite IH. destruct (read_nodes nodes l1); [|reflexivity].
    now destruct (read_nodes nodes l2).
Qed.

(** Rendering reads the nodes of the meshes of the tree, in order. *)
Lemma mount_meshes : forall e : Element,
  mount nodes e = read_nodes nodes (meshes e).
Proof.
  fix IH 1. intros [cs|n en cs|num|s]; simpl.
  - induction cs as [|c cs IHcs]; simpl; [reflexivity|].
    rewrite read_nodes_app, (IH c), IHcs. reflexivity.
  - induction cs as [|c cs IHcs]; simpl; [reflexivity|].
    rewrite read_nodes_app, (IH c), IHcs. reflexivity.
  - now destruct (Mesh_node nodes num).
  - reflexivity.
Qed.

Lemma read_nodes_none (l : list nat) :
  read_nodes nodes l = None <->
  exists i, In i l /\ nodes (mesh_key i) = None.
Proof.
  induction l as [|n l IH]; simpl.
  - split; [discriminate | intros (i & [] & _)].
  - unfold Mesh_node at 1. destruct (nodes (mesh_key n)) as [a|] eqn:En.
    + destruct (read_nodes nodes l) as [b|].
      * split; [discriminate|].
        intros (i & [<-|Hi] & Ei); [congruence|].
        assert (F : Some b = None) by (apply IH; eauto). discriminate F.
      * split; [|reflexivity]. intros _.
        destruct (proj1 IH eq_refl) as (i & Hi & Ei). eauto.
    + split; [|reflexivity]. intros _. eauto.
Qed.

Lemma read_nodes_length (l : list nat) (r : list A) :
  read_nodes nodes l = Some r -> List.length r = List.length l.
Proof.
  revert r. induction l as [|n l IH]; simpl; intros r.
  - now intros [= <-].
  - destruct (Mesh_node nodes n); [|discriminate].
    destruct (read_nodes nodes l) as [b|]; [|discriminate].
    intros [= <-]. simpl. now rewrite (IH b).
Qed.

End Nodes.

(** X13. Different mesh numbers give different keys of [nodes]: no
    two meshes of the tree read the same node. *)
Theorem mesh_key_distinct (a b : nat) :
  a <> b -> mesh_key a <> mesh_key b.
Proof.
  intros Hne E. apply Hne. unfold mesh_key in E. simpl in E.
  injection E as E.
  apply DecimalNat.Unsigned.to_uint_inj.
  assert (S : Some (Nat.to_uint a) = Some (Nat.to_uint b)).
  { rewrite <- !NilEmpty.usu. now rewrite E. }
  now injection S.
Qed.

Lemma mesh_key_distinct_witness : mesh_key 1 <> mesh_key 10.
Proof. apply (mesh_key_distinct 1 10). lia. Defined.

(** X14. [Engine] renders without a throw exactly when [nodes] has
    the 60 keys mesh_0, ..., mesh_59: one missing key makes the
    render fail, whatever the state, and a render that succeeds reads
    60 nodes. *)
Theorem mount_Engine_needs_sixty_nodes
    (A : Type) (nodes : string -> option A)
    (h : option string) (c : Config) :
  (mount nodes (Engine h c) = None <->
   exists i, i < 60 /\ nodes (mesh_key i) = None) /\
  (forall r, mount nodes (Engine h c) = Some r -> List.length r = 60).
Proof.
  rewrite mount_meshes. split.
  - rewrite read_nodes_none. split.
    + intros (i & Hi & Ei). exists i. split; [|exact Ei].
      apply (part_table_covers h c). apply in_table_flat.
      now rewrite <- meshes_Engine.
    + intros (i & Hi & Ei). exists i. split; [|exact Ei].
      rewrite meshes_Engine. apply in_table_flat.
      now apply part_table_covers.
  - intros r Hr. apply read_nodes_length in Hr. rewrite Hr. reflexivity.
Qed.

(** ** The body of [Engine] over successive renders *)

Module BodyFacts.
Import Body.

Lemma renders_snoc (cs : list Config) (c : Config) (r : Refs) :
  renders (cs ++ [c]) r = body c (renders cs r).
Proof. unfold renders. now rewrite fold_left_app. Qed.

Lemma sync_keeps_box (auto : bool) (r : Refs) :
  heap (sync_autoRotate auto r) = heap r /\
  boxH_current (sync_autoRotate auto r) = boxH_current r /\
  scene (sync_autoRotate auto r) = scene r.
Proof.
  unfold sync_autoRotate. destruct (controls_autoRotate r) as [[b|]|]; auto.
Qed.

Lemma box_keeps_controls (auto : bool) (r : Refs) :
  controls_autoRotate (box_effect auto r) = controls_autoRotate r.
Proof.
  unfold box_effect.
  destruct auto, (boxH_current r) eqn:E; cbn; rewrite ?E; reflexivity.
Qed.

(** X15. The box helper over any sequence of renders from the first
    one. As long as no render had [autoRotate] checked no helper
    exists and the scene is untouched. From the first render with
    [autoRotate] checked on there is exactly one helper, white, added
    to the scene once and held by the ref, and it is visible exactly
    when [autoRotate] was checked in the last render. *)
Theorem box_helper_lifecycle
    (cs : list Config) (ctl : option (option bool)) :
  let r := renders cs (initial_refs ctl) in
  if existsb autoRotate cs
  then heap r = [mkBoxHelper "white" (autoRotate (last cs initial))] /\
       boxH_current r = Some 0 /\ scene r = [0] /\
       scene_helpers r
         = [Some (mkBoxHelper "white" (autoRotate (last cs initial)))]
  else heap r = [] /\ boxH_current r = None /\ scene r = [] /\
       scene_helpers r = [].
Proof.
  induction cs as [|c cs IH] using rev_ind; [simpl; auto|].
  cbv zeta in *. rewrite renders_snoc, existsb_app, last_last.
  unfold body, scene_helpers in *.
  destruct (sync_keeps_box (autoRotate c) (renders cs (initial_refs ctl)))
    as (Eh & Eb & Es).
  revert Eh Eb Es. generalize (sync_autoRotate (autoRotate c)
                                 (renders cs (initial_refs ctl))).
  intros r' Eh Eb Es.
  destruct (existsb autoRotate cs).
  - destruct IH as (Hh & Hb & Hs & _). rewrite Hh in Eh. rewrite Hb in Eb.
    rewrite Hs in Es. destruct r' as [hp bx sc ct]. simpl in Eh, Eb, Es.
    subst hp bx sc. simpl. destruct (autoRotate c); simpl; auto.
  - destruct IH as (Hh & Hb & Hs & _). rewrite Hh in Eh. rewrite Hb in Eb.
    rewrite Hs in Es. destruct r' as [hp bx sc ct]. simpl in Eh, Eb, Es.
    subst hp bx sc. simpl. destruct (autoRotate c); simpl; auto.
Qed.

(** X16. [controls.autoRotate] over any sequence of renders: controls
    that have the property carry the [autoRotate] of the last render;
    missing controls, and controls without the property, are left as
    they are and never get the property. *)
Theorem autoRotate_follows_panel
    (cs : list Config) (c : Config) (r : Refs) :
  controls_autoRotate (renders (cs ++ [c]) r) =
    match controls_autoRotate r with
    | Some (Some _) => Some (Some (autoRotate c))
    | other => other
    end.
Proof.
  assert (Shape : forall ds,
    match controls_autoRotate r with
    | Some (Some _) =>
        exists b, controls_autoRotate (renders ds r) = Some (Some b)
    | other => controls_autoRotate (renders ds r) = other
    end).
  { induction ds as [|d ds IH] using rev_ind.
    - simpl. destruct (controls_autoRotate r) as [[b|]|]; eauto.
    - rewrite renders_snoc. unfold body. rewrite box_keeps_controls.
      unfold sync_autoRotate.
      destruct (controls_autoRotate r) as [[b|]|].
      + destruct IH as (b' & ->). simpl. eauto.
      + rewrite IH. exact IH.
      + rewrite IH. exact IH. }
  specialize (Shape cs).
  rewrite renders_snoc. unfold body. rewrite box_keeps_controls.
  unfold sync_autoRotate.
  destruct (controls_autoRotate r) as [[b|]|].
  - destruct Shape as (b' & ->). reflexivity.
  - rewrite Shape. exact Shape.
  - rewrite Shape. exact Shape.
Qed.

End BodyFacts.

(** ** More on the pivot reset button *)

Module PivotLaws.
Section Button.

Import Pivot.
Context `{Three}.

(** X17. However often the button is pressed, the root group stays
    where the first press put it, and the guard stays set. *)
Theorem reset_many_keeps_group (n : nat) (v : Viewer) :
  group_current (Nat.iter (S n) reset v) = group_current (reset v) /\
  reset_current (Nat.iter (S n) reset v) = true.
Proof.
  induction n as [|n [IHg IHr]].
  - simpl. split; [reflexivity|].
    rewrite (proj1 (PivotFacts.reset_refs v)).
    apply PivotFacts.recenter_sets_guard.
  - change (Nat.iter (S (S n)) reset v) with (reset (Nat.iter (S n) reset v)).
    destruct (PivotFacts.reset_refs (Nat.iter (S n) reset v)) as [Er Eg].
    rewrite Er, Eg, (PivotFacts.recenter_guarded _ IHr). auto.
Qed.

(** X18. The camera part of the button runs on every press, with the
    guard set or not: the controls are reset from the controls and
    the camera as they were, the up vector becomes (0, 1, 0), and the
    body of the group is never written. With the guard set the group
    is not moved at all. *)
Theorem reset_camera_every_press (v : Viewer) :
  controls (reset v) = fst (controls_reset (controls v) (camera v)) /\
  optics (camera (reset v))
    = optics (snd (controls_reset (controls v) (camera v))) /\
  up (camera (reset v)) = mkVector3 zero one zero /\
  body (group_current (reset v)) = body (group_current v) /\
  (reset_current v = true -> group_current (reset v) = group_current v).
Proof.
  unfold reset, recenter.
  destruct (reset_current v);
    cbn [negb group_current controls camera reset_current];
    destruct (controls_reset _ _) as [ctl cam];
    cbn [group_current position body controls camera optics up fst snd];
    repeat split; discriminate.
Qed.

End Button.
End PivotLaws.

(** ** The tree and the clicks, once more *)

(** X19. Whatever the state, the tree holds each of the meshes 0, ...,
    59 exactly once: the meshes of the tree are a rearrangement of
    these 60 numbers, so no mesh is drawn twice, also not inside one
    part. *)
Theorem meshes_Engine_once (h : option string) (c : Config) :
  Permutation (meshes (Engine h c)) (seq 0 60) /\
  NoDup (meshes (Engine h c)) /\
  List.length (meshes (Engine h c)) = 60.
Proof.
  assert (ND : NoDup (meshes (Engine h c))).
  { rewrite meshes_Engine. apply part_table_NoDup. }
  split; [|split; [exact ND | reflexivity]].
  apply NoDup_Permutation; [exact ND | apply seq_NoDup |].
  intros i. rewrite meshes_Engine, <- in_table_flat, part_table_covers, in_seq.
  lia.
Qed.

(** X20. A second double click on the same mesh, or on another mesh
    of the same part, changes nothing. *)
Theorem double_click_same_part_idempotent
    (s : State) (name : string) (arr : list nat) (i j : nat) :
  In (name, arr) (part_table (render s)) -> In i arr -> In j arr ->
  onDoubleClick j (onDoubleClick i s) = onDoubleClick i s.
Proof.
  intros Ht Hi Hj. unfold onDoubleClick, render in *.
  rewrite (parent_name_Engine _ _ name arr i Ht Hi). cbn [hovered config].
  rewrite part_table_Engine in Ht.
  rewrite (parent_name_Engine _ _ name arr j);
    [|rewrite part_table_Engine; exact Ht | exact Hj].
  now rewrite pton_last_write_wins_aux.
Qed.

Lemma double_click_same_part_idempotent_witness :
  onDoubleClick 33 (onDoubleClick 29 initial_state)
    = onDoubleClick 29 initial_state.
Proof.
  apply (double_click_same_part_idempotent initial_state "shaft"
           [29; 30; 31; 32; 33] 29 33); simpl; tauto.
Defined.
